(** * Lunu builder and launcher stub: a shallow embedding

    Two programs of the repository are embedded here.

    - [Builder]: [src/builder/src/main.cpp], the command line front end
      ([version], [build <file.luau>]).
    - [Stub]:    [src/builder/src/stub.c], the launcher that creates a
      temporary directory, calls [extract_payload], starts
      [bin\lune.exe run src\main.luau] in it and returns the child's
      exit code.

    Both talk to their host only through the console, the file system and a
    handful of Win32 calls.  The host is modelled by an explicit [World]
    that every operation threads through, and by a [Host] record holding
    what the program cannot decide itself (the temp root, the process id,
    whether a directory can be created, what a started program does). *)

From Stdlib Require Import ZArith Ascii String List Lia.
From stdpp Require Import base option list gmap strings pretty.

Open Scope Z_scope.

(** ** The world outside the programs *)

Module OS.

(** Directories and regular files, by full path name. *)
Record FS := mkFS {
  dirs  : gset string;
  files : gmap string (list Z)
}.

(** The process-related host calls, as they are made. *)
Inductive Call :=
| Spawn  (cmd_line cwd : string) (started : bool)   (* CreateProcessA *)
| Reaped (exit_code : Z).        (* wait over, GetExitCodeProcess read it *)

Record World := mkWorld {
  fs         : FS;
  out        : list string;            (* stdout, oldest chunk first *)
  err        : list string;            (* stderr, oldest chunk first *)
  last_error : Z;                      (* what GetLastError() reads *)
  keys_read  : nat;                    (* getchar() calls served *)
  calls      : list Call               (* newest first *)
}.

Definition exists_path (f : FS) (p : string) : bool :=
  bool_decide (p ∈ dirs f) || bool_decide (is_Some (files f !! p)).

Definition set_fs (f : FS) (w : World) : World :=
  mkWorld f (out w) (err w) (last_error w) (keys_read w) (calls w).

Definition put_out (s : string) (w : World) : World :=
  mkWorld (fs w) (out w ++ [s]) (err w) (last_error w) (keys_read w) (calls w).

Definition put_err (s : string) (w : World) : World :=
  mkWorld (fs w) (out w) (err w ++ [s]) (last_error w) (keys_read w) (calls w).

Definition set_last_error (e : Z) (w : World) : World :=
  mkWorld (fs w) (out w) (err w) e (keys_read w) (calls w).

Definition read_key (w : World) : World :=
  mkWorld (fs w) (out w) (err w) (last_error w) (S (keys_read w)) (calls w).

Definition log_call (c : Call) (w : World) : World :=
  mkWorld (fs w) (out w) (err w) (last_error w) (keys_read w) (c :: calls w).

Definition nl : string := String "010"%char EmptyString.
Definition dquote : string := String "034"%char EmptyString.

End OS.

(** ** The part of [std::string] that [main.cpp] uses *)

Module Cxx.

(** [size_type] with its sentinel [npos] kept apart from real positions. *)
Inductive size_type := at_pos (i : nat) | npos.

Definition occurs (c : ascii) (chars : string) : bool :=
  bool_decide (c ∈ list_ascii_of_string chars).

(** [s.find_last_of(chars)]: position of the last character of [s] that is
    one of [chars], [npos] when there is none. *)
Fixpoint find_last_of (s chars : string) : size_type :=
  match s with
  | EmptyString => npos
  | String a rest =>
      match find_last_of rest chars with
      | at_pos i => at_pos (S i)
      | npos => if occurs a chars then at_pos 0 else npos
      end
  end.

(** [s.substr(pos, count)] for [pos <= s.size()]: the characters from
    [pos], [count] of them or up to the end, whichever comes first; a
    [count] of [npos] always means up to the end. *)
Definition substr (s : string) (pos : nat) (count : size_type) : string :=
  let room := (String.length s - pos)%nat in
  substring pos (match count with
                 | at_pos n => Nat.min n room
                 | npos => room
                 end) s.

(** No dot anywhere in [s]. *)
Definition dotless (s : string) : Prop := find_last_of s "." = npos.

End Cxx.

(** ** [main.cpp]: the builder front end *)

Module Builder.
Import OS Cxx.

(** [cout << s << endl] and [cerr << s << endl]. *)
Definition cout (s : string) (w : World) : World := put_out (s +:+ nl) w.
Definition cerr (s : string) (w : World) : World := put_err (s +:+ nl) w.

Definition print_usage (w : World) : World :=
  let w := cout "Lunu Builder v0.1.0" w in
  let w := cout "Usage: lunu-builder <command> [options]" w in
  let w := cout "Commands:" w in
  let w := cout "  build <file.luau>   Compile a Luau file (placeholder)" w in
  cout "  version             Show version" w.

(** Line 33: [filename.substr(0, filename.find_last_of(".")) + ".exe"]. *)
Definition output_exe (filename : string) : string :=
  substr filename 0 (find_last_of filename ".") +:+ ".exe".

(** [argv[i]]; only read where [i < argc]. *)
Definition arg (argv : list string) (i : nat) : string :=
  nth i argv EmptyString.

(** [main(argc, argv)] with [argc = length argv]; the result is the value
    returned, which is the exit code of the builder process. *)
Definition main (argv : list string) (w : World) : Z * World :=
  let argc := Z.of_nat (length argv) in
  if argc <? 2 then (1, print_usage w)
  else
    let command := arg argv 1 in
    if String.eqb command "version" then
      (0, cout "Lunu Builder v0.1.0" w)
    else if String.eqb command "build" then
      if argc <? 3 then (1, cerr "Error: Missing file argument." w)
      else
        let filename := arg argv 2 in
        let w := cout ("[Builder] Processing " +:+ filename +:+ "...") w in
        let output := output_exe filename in
        let w := cout "[Builder] Target: Standalone Executable" w in
        let w := cout ("[Builder] Output: ./" +:+ output +:+
                       " (In current directory)") w in
        let w := cout "[Builder] TODO: Implement Luau compilation & packing logic here." w in
        (0, w)
    else
      let w := cerr ("Unknown command: " +:+ command) w in
      (1, print_usage w).

End Builder.

(** ** The Win32 calls [stub.c] makes *)

Module Win32.
Import OS.

Definition MAX_PATH : nat := 260.
Definition ERROR_ALREADY_EXISTS : Z := 183.

(** How a started program behaves once it runs.  Of a program that never
    terminates only that is recorded: the launcher never gets past its wait,
    and what the program does to the disk meanwhile is not part of the
    launcher's final world. *)
Inductive Child :=
| Terminates (exit_code : Z) (after : FS)
| RunsForever.

(** What the host decides. *)
Record Host := mkHost {
  module_file_name : option string;       (* None: GetModuleFileNameA fails *)
  temp_root        : string;              (* the path GetTempPathA reports *)
  process_id       : N;                   (* GetCurrentProcessId *)
  create_fault     : string → option Z;   (* why a fresh directory cannot be
                                             made there, as an error code *)
  program          : string → string → FS → option Child
                                          (* command line, working directory,
                                             file system at the start; None:
                                             CreateProcessA fails *)
}.

(** How a process ends. *)
Inductive Outcome :=
| Exited (status : Z)       (* exit status as the host sees it, a DWORD *)
| Blocked                   (* waits on a child that never terminates *)
| Undefined.                (* wrote past a buffer or read one never filled *)

(** Computations of the launcher: they change the world and either yield
    a value or end the process. *)
Definition Run (A : Type) : Type := World → (Outcome + A) * World.

#[global] Instance run_ret : MRet Run := λ A a w, (inr a, w).
#[global] Instance run_bind : MBind Run := λ A B f m w,
  match m w with
  | (inl o, w') => (inl o, w')
  | (inr a, w') => f a w'
  end.

Definition halt {A} (o : Outcome) : Run A := λ w, (inl o, w).
Definition effect (f : World → World) : Run unit := λ w, (inr tt, f w).

Definition DWORD (z : Z) : Z := z mod 2 ^ 32.
Definition int_of_DWORD (d : Z) : Z := if d <? 2 ^ 31 then d else d - 2 ^ 32.

(** [exit(code)]: the status the host records is the code as a DWORD. *)
Definition exit {A} (code : Z) : Run A := halt (Exited (DWORD code)).

Definition printf (s : string) : Run unit := effect (put_out s).
Definition fprintf_stderr (s : string) : Run unit := effect (put_err s).
(** [getchar()]: the read is recorded; how long the process waits for the
    key is not. *)
Definition getchar : Run unit := effect read_key.

(** [sprintf(buf, ...)] into [char buf[cap]]: the text and its
    terminator have to fit. *)
Definition sprintf (cap : nat) (text : string) : Run string :=
  if (String.length text <? cap)%nat then mret text else halt Undefined.

(** The buffer gets the path, cut to [nSize - 1] characters when it is
    longer; the call returns 0 when the host has no path to give. *)
Definition GetModuleFileNameA (h : Host) (nSize : nat) : Run (option string) :=
  mret (substring 0 (nSize - 1) <$> module_file_name h).

(** The buffer is filled only when the path and its terminator fit;
    [stub.c] ignores the result and reads the buffer. *)
Definition GetTempPathA (h : Host) (nBufferLength : nat) : Run string :=
  if (String.length (temp_root h) <? nBufferLength)%nat
  then mret (temp_root h) else halt Undefined.

Definition GetCurrentProcessId (h : Host) : Run N := mret (process_id h).

Definition add_dir (p : string) (f : FS) : FS :=
  mkFS ({[p]} ∪ dirs f) (files f).

Definition CreateDirectoryA (h : Host) (path : string) : Run bool := λ w,
  if exists_path (fs w) path
  then (inr false, set_last_error ERROR_ALREADY_EXISTS w)
  else match create_fault h path with
       | Some e => (inr false, set_last_error e w)
       | None => (inr true, set_fs (add_dir path (fs w)) w)
       end.

Definition GetLastError : Run Z := λ w, (inr (last_error w), w).

(** [CreateProcessA(NULL, cmd_line, ..., cwd, &si, &pi)]; the handle in
    [pi] stands for the running child. *)
Definition CreateProcessA (h : Host) (cmd_line cwd : string)
  : Run (option Child) := λ w,
  match program h cmd_line cwd (fs w) with
  | Some child => (inr (Some child), log_call (Spawn cmd_line cwd true) w)
  | None => (inr None, log_call (Spawn cmd_line cwd false) w)
  end.

(** [WaitForSingleObject(pi.hProcess, INFINITE)]: returns when the child
    has terminated, with what the child did to the file system in place. *)
Definition WaitForSingleObject (child : Child) : Run unit :=
  match child with
  | Terminates _ after => effect (set_fs after)
  | RunsForever => halt Blocked
  end.

(** [GetExitCodeProcess(pi.hProcess, &exit_code)] after the wait. *)
Definition GetExitCodeProcess (child : Child) : Run Z :=
  match child with
  | Terminates code _ => _ ← effect (log_call (Reaped (DWORD code))); mret (DWORD code)
  | RunsForever => halt Blocked
  end.

Definition CloseHandle : Run unit := mret tt.

End Win32.

(** ** [stub.c]: the launcher *)

Module Stub.
Import OS Win32.

Definition panic {A} (msg : string) : Run A :=
  _ ← fprintf_stderr (nl +:+ "[Lunu Stub] CRITICAL: " +:+ msg +:+ nl);
  _ ← fprintf_stderr ("Press Enter to exit..." +:+ nl);
  _ ← getchar;
  exit 1.

(** Lines 18-24.  The body announces the extraction and does nothing
    else: neither argument is opened, read or written. *)
Definition extract_payload (exe_path out_dir : string) : Run unit :=
  printf ("[Stub] Extracting payload from " +:+ exe_path +:+ " to " +:+
          out_dir +:+ "..." +:+ nl).

(** Lines 39-41: the directory is there afterwards or the launcher dies. *)
Definition create_temp_dir (h : Host) (unique_dir : string) : Run unit :=
  created ← CreateDirectoryA h unique_dir;
  refused ← (if created : bool then mret false
             else e ← GetLastError; mret (negb (e =? ERROR_ALREADY_EXISTS)));
  if refused : bool then panic "Failed to create temp directory" else mret tt.

(** Line 37: [sprintf(unique_dir, "%slunu_%lu", temp_path, pid)]. *)
Definition unique_dir_of (temp_path : string) (pid : N) : string :=
  temp_path +:+ "lunu_" +:+ pretty pid.

(** Lines 47-61: the three strings built from the directory name. *)
Definition lune_path_of (unique_dir : string) : string :=
  unique_dir +:+ "\bin\lune.exe".
Definition script_path_of (unique_dir : string) : string :=
  unique_dir +:+ "\src\main.luau".
Definition cmd_line_of (lune_path script_path : string) : string :=
  dquote +:+ lune_path +:+ dquote +:+ " run " +:+ dquote +:+ script_path +:+ dquote.

(** Lines 63-73: start the runtime, wait, read its exit code. *)
Definition run_lune (h : Host) (cmd_line unique_dir : string) : Run Z :=
  pi ← CreateProcessA h cmd_line unique_dir;
  match pi with
  | None => panic "Failed to start Lune runtime"
  | Some child =>
      _ ← WaitForSingleObject child;
      exit_code ← GetExitCodeProcess child;
      _ ← CloseHandle;
      _ ← CloseHandle;
      mret exit_code
  end.

(** [main()]; the value is the [int] that [return exit_code] yields. *)
Definition main (h : Host) : Run Z :=
  got ← GetModuleFileNameA h MAX_PATH;
  exe_path ← match got with
             | None => panic "Failed to get executable path"
             | Some p => mret p
             end;
  temp_path ← GetTempPathA h MAX_PATH;
  pid ← GetCurrentProcessId h;
  unique_dir ← sprintf MAX_PATH (unique_dir_of temp_path pid);
  _ ← create_temp_dir h unique_dir;
  _ ← extract_payload exe_path unique_dir;
  lune_path ← sprintf MAX_PATH (lune_path_of unique_dir);
  script_path ← sprintf MAX_PATH (script_path_of unique_dir);
  cmd_line ← sprintf (MAX_PATH * 2) (cmd_line_of lune_path script_path);
  exit_code ← run_lune h cmd_line unique_dir;
  (* Cleanup: RemoveDirectoryA(unique_dir) is commented out. *)
  mret (int_of_DWORD exit_code).

(** The launcher process: the C runtime calls [main] and hands what it
    returns to [exit]. *)
Definition launcher (h : Host) (w : World) : Outcome * World :=
  match main h w with
  | (inl o, w') => (o, w')
  | (inr r, w') => (Exited (DWORD r), w')
  end.

(** The world [panic] leaves: two lines on stderr and one key read. *)
Definition panicked (msg : string) (w : World) : World :=
  read_key (put_err ("Press Enter to exit..." +:+ nl)
    (put_err (nl +:+ "[Lunu Stub] CRITICAL: " +:+ msg +:+ nl) w)).

(** The temp root fits [temp_path] and the directory name fits
    [unique_dir], both [char[MAX_PATH]]. *)
Definition fits (h : Host) : bool :=
  (String.length (temp_root h) <? MAX_PATH)%nat
  && (String.length (unique_dir_of (temp_root h) (process_id h)) <? MAX_PATH)%nat.

(** [lune_path], [script_path] and [cmd_line] fit their buffers. *)
Definition paths_fit (u : string) : bool :=
  (String.length (lune_path_of u) <? MAX_PATH)%nat
  && (String.length (script_path_of u) <? MAX_PATH)%nat
  && (String.length (cmd_line_of (lune_path_of u) (script_path_of u))
      <? MAX_PATH * 2)%nat.

(** No program the host may start removes directory [d]. *)
Definition keeps_dir (h : Host) (d : string) : Prop :=
  ∀ cmd_line cwd f code after,
    program h cmd_line cwd f = Some (Terminates code after) →
    d ∈ dirs f → d ∈ dirs after.

End Stub.

(** ** Launcher images

  [extract_payload]'s comment names the format of the payload: a ZIP
  archive found through its end-of-central-directory (EOCD) record,
  signature [0x06054b50].  This module reads that layout, so that
  statements about images can say which entries an image carries and
  where the signature occurs in it. *)

Module Zip.

Definition EOCD_SIGNATURE : Z := 0x06054b50.
Definition CDH_SIGNATURE  : Z := 0x02014b50.   (* central directory header *)
Definition LFH_SIGNATURE  : Z := 0x04034b50.   (* local file header *)
Definition EOCD_SIZE : nat := 22.

Definition le16 (image : list Z) (p : nat) : option Z :=
  b0 ← image !! p; b1 ← image !! S p; Some (b0 + 256 * b1).

Definition le32 (image : list Z) (p : nat) : option Z :=
  lo ← le16 image p; hi ← le16 image (p + 2); Some (lo + 65536 * hi).

Definition slice (image : list Z) (p n : nat) : option (list Z) :=
  let s := take n (drop p image) in
  if decide (length s = n) then Some s else None.

Definition text (bytes : list Z) : string :=
  string_of_list_ascii (map (λ b, ascii_of_nat (Z.to_nat b)) bytes).

Definition signature_at (image : list Z) (p : nat) : bool :=
  bool_decide (le32 image p = Some EOCD_SIGNATURE).

(** The position closest to the end, below [n], where the signature
    stands; [None] when it stands nowhere below [n]. *)
Fixpoint scan_back (image : list Z) (n : nat) : option nat :=
  match n with
  | O => None
  | S p => if signature_at image p then Some p else scan_back image p
  end.

Definition rearmost_signature (image : list Z) : option nat :=
  scan_back image (length image).

(** One stored entry, read through its central directory header at [cdh];
    [base] is where the archive starts inside the image.  Yields the entry
    and the position of the next header. *)
Definition stored_entry (image : list Z) (base cdh : nat)
  : option ((string * list Z) * nat) :=
  sig ← le32 image cdh;
  _ ← guard (sig = CDH_SIGNATURE);
  method ← le16 image (cdh + 10);
  _ ← guard (method = 0);
  size ← le32 image (cdh + 20);
  name_len ← le16 image (cdh + 28);
  extra_len ← le16 image (cdh + 30);
  comment_len ← le16 image (cdh + 32);
  lfh_offset ← le32 image (cdh + 42);
  name ← slice image (cdh + 46) (Z.to_nat name_len);
  let lfh := (base + Z.to_nat lfh_offset)%nat in
  lsig ← le32 image lfh;
  _ ← guard (lsig = LFH_SIGNATURE);
  lname_len ← le16 image (lfh + 26);
  lextra_len ← le16 image (lfh + 28);
  data ← slice image (lfh + 30 + Z.to_nat lname_len + Z.to_nat lextra_len)
               (Z.to_nat size);
  Some ((text name, data),
        (cdh + 46 + Z.to_nat name_len + Z.to_nat extra_len
             + Z.to_nat comment_len)%nat).

Fixpoint read_entries (image : list Z) (base cdh n : nat)
  : option (list (string * list Z)) :=
  match n with
  | O => Some []
  | S n' =>
      '(e, next) ← stored_entry image base cdh;
      rest ← read_entries image base next n';
      Some (e :: rest)
  end.

(** The entries of the archive whose EOCD record ends the image. *)
Definition entries (image : list Z) : option (list (string * list Z)) :=
  let eocd := (length image - EOCD_SIZE)%nat in
  _ ← guard (signature_at image eocd = true);
  n ← le16 image (eocd + 10);
  cd_size ← le32 image (eocd + 12);
  cd_offset ← le32 image (eocd + 16);
  let cd_start := (eocd - Z.to_nat cd_size)%nat in
  let base := (cd_start - Z.to_nat cd_offset)%nat in
  read_entries image base cd_start (Z.to_nat n).

(** Path segments, split at [/] and [\]. *)
Definition is_sep (c : ascii) : bool :=
  Ascii.eqb c "/"%char || Ascii.eqb c "\"%char.

Fixpoint segments (path : string) : list string :=
  match path with
  | EmptyString => [EmptyString]
  | String c rest =>
      if is_sep c then EmptyString :: segments rest
      else match segments rest with
           | s :: ss => String c s :: ss
           | [] => [String c EmptyString]
           end
  end.

(** Does walking the segments from a directory ever step above it? *)
Fixpoint climbs_out (segs : list string) (depth : nat) : bool :=
  match segs with
  | [] => false
  | seg :: rest =>
      if String.eqb seg ".." then
        match depth with
        | O => true
        | S d => climbs_out rest d
        end
      else if String.eqb seg "." || String.eqb seg EmptyString
      then climbs_out rest depth
      else climbs_out rest (S depth)
  end.

Definition escapes (path : string) : bool :=
  is_sep (default "a"%char (head (list_ascii_of_string path)))
  || climbs_out (segments path) 0.

End Zip.

(** ** Concrete hosts, images and worlds used to run the programs *)

Module Scenario.
Import OS Win32.

(** The first bytes of a launcher template: no archive follows. *)
Definition launcher_template : list Z := [77; 90; 144; 0].

(** The template followed by a stored ZIP archive whose only entry is
    [src/main.luau] with the eight bytes of [print(1)]. *)
Definition image_script : list Z := launcher_template ++
  [80; 75; 3; 4; 20; 0; 0; 0; 0; 0; 0; 0; 33; 88; 8; 167;
   144; 237; 8; 0; 0; 0; 8; 0; 0; 0; 13; 0; 0; 0; 115; 114;
   99; 47; 109; 97; 105; 110; 46; 108; 117; 97; 117; 112; 114; 105; 110; 116;
   40; 49; 41; 80; 75; 1; 2; 20; 0; 20; 0; 0; 0; 0; 0; 0;
   0; 33; 88; 8; 167; 144; 237; 8; 0; 0; 0; 8; 0; 0; 0; 13;
   0; 0; 0; 0; 0; 0; 0; 0; 0; 0; 0; 128; 1; 0; 0; 0;
   0; 115; 114; 99; 47; 109; 97; 105; 110; 46; 108; 117; 97; 117; 80; 75;
   5; 6; 0; 0; 0; 0; 1; 0; 1; 0; 59; 0; 0; 0; 51; 0;
   0; 0; 0; 0].

(** The template followed by a stored ZIP archive whose only entry is
    [../outside.txt] with the five bytes of [pwned]. *)
Definition image_outside : list Z := launcher_template ++
  [80; 75; 3; 4; 20; 0; 0; 0; 0; 0; 0; 0; 33; 88; 126; 83;
   4; 217; 5; 0; 0; 0; 5; 0; 0; 0; 14; 0; 0; 0; 46; 46;
   47; 111; 117; 116; 115; 105; 100; 101; 46; 116; 120; 116; 112; 119; 110; 101;
   100; 80; 75; 1; 2; 20; 0; 20; 0; 0; 0; 0; 0; 0; 0; 33;
   88; 126; 83; 4; 217; 5; 0; 0; 0; 5; 0; 0; 0; 14; 0; 0;
   0; 0; 0; 0; 0; 0; 0; 0; 0; 128; 1; 0; 0; 0; 0; 46;
   46; 47; 111; 117; 116; 115; 105; 100; 101; 46; 116; 120; 116; 80; 75; 5;
   6; 0; 0; 0; 0; 1; 0; 1; 0; 60; 0; 0; 0; 49; 0; 0;
   0; 0; 0].

Definition exe : string := "C:\app\game.exe".
Definition temp : string := "C:\Temp\".
Definition temp_dir : string := "C:\Temp\lunu_4242".

(** A runtime that leaves the file system alone and exits with [code];
    it can only be started where [bin\lune.exe] exists under the working
    directory. *)
Definition runtime (code : Z) (cmd_line cwd : string) (f : FS) : option Child :=
  if bool_decide (is_Some (files f !! (cwd +:+ "\bin\lune.exe")))
  then Some (Terminates code f) else None.

Definition host (code : Z) : Host :=
  mkHost (Some exe) temp 4242 (λ _, None) (runtime code).

(** A host on which no directory can be made: access denied (5). *)
Definition host_read_only : Host :=
  mkHost (Some exe) temp 4242 (λ _, Some 5) (runtime 0).

Definition world_of (f : FS) : World := mkWorld f [] [] 0 0 [].

(** Only the launcher is on disk. *)
Definition fresh (image : list Z) : FS :=
  mkFS {[ "C:\app"; "C:\Temp" ]} {[ exe := image ]}.

(** The directory of an earlier run with the same process id is still
    there, runtime and script inside. *)
Definition stale (image : list Z) : FS :=
  mkFS {[ "C:\app"; "C:\Temp"; temp_dir; temp_dir +:+ "\bin"; temp_dir +:+ "\src" ]}
       (<[ temp_dir +:+ "\bin\lune.exe" := [77; 90] ]>
         (<[ temp_dir +:+ "\src\main.luau" := [45; 45] ]> {[ exe := image ]})).

(** The builder's working directory with one script in it. *)
Definition project : FS :=
  mkFS ∅ {[ "game.luau" := [112; 114; 105; 110; 116; 40; 49; 41] ]}.

End Scenario.

(** ** What the statements below measure runs with *)

Module Observe.
Import OS Win32 Stub Scenario.

Definition is_spawn (c : Call) : bool :=
  match c with Spawn _ _ _ => true | Reaped _ => false end.

(** A temp root of 233 characters: with [lunu_4242] the directory name has
    242. *)
Definition long_root : string :=
  "C:\" +:+ string_of_list_ascii (replicate 229 "a"%char) +:+ "\".

Definition host_long : Host :=
  mkHost (Some exe) long_root 4242 (λ _, None) (runtime 0).

(** A host that cannot name the running executable. *)
Definition host_nameless : Host :=
  mkHost None temp 4242 (λ _, None) (runtime 0).

End Observe.

(** * Facts about the builder *)

Module BuilderFacts.
Import OS Cxx Builder Scenario.

Lemma append_cons (a : ascii) (s t : string) :
  String a s +:+ t = String a (s +:+ t).
Proof. reflexivity. Qed.

Lemma substring_all (s : string) : substring 0 (String.length s) s = s.
Proof. induction s as [|a s IH]; simpl; [done | by rewrite IH]. Qed.

Lemma substring_prefix (base rest : string) :
  substring 0 (String.length base) (base +:+ rest) = base.
Proof.
  induction base as [|a base IH].
  - by destruct rest.
  - rewrite append_cons. simpl. by rewrite IH.
Qed.

Lemma length_app_le (base rest : string) :
  (String.length base ≤ String.length (base +:+ rest))%nat.
Proof. induction base; [simpl; lia | rewrite append_cons; simpl; lia]. Qed.

Lemma find_last_of_dotted (base ext : string) :
  dotless ext →
  find_last_of (base +:+ "." +:+ ext) "." = at_pos (String.length base).
Proof.
  unfold dotless. intros Hext.
  change ("." +:+ ext) with (String "."%char ext).
  induction base as [|a base IH].
  - change (EmptyString +:+ String "."%char ext) with (String "."%char ext).
    simpl. by rewrite Hext.
  - rewrite append_cons. simpl. by rewrite IH.
Qed.

(** A string without any dot gets the suffix appended to all of it. *)
Lemma output_exe_dotless (filename : string) :
  dotless filename → output_exe filename = filename +:+ ".exe".
Proof.
  unfold dotless, output_exe, substr. intros ->.
  by rewrite Nat.sub_0_r, substring_all.
Qed.

(** What follows the last dot of the string is replaced by [exe]. *)
Lemma output_exe_dotted (base ext : string) :
  dotless ext → output_exe (base +:+ "." +:+ ext) = base +:+ ".exe".
Proof.
  intros Hext. unfold output_exe, substr.
  rewrite (find_last_of_dotted _ _ Hext), Nat.sub_0_r.
  rewrite Nat.min_l by apply length_app_le.
  by rewrite substring_prefix.
Qed.

Example output_exe_game : output_exe "game.luau" = "game.exe".
Proof. reflexivity. Qed.

Example output_exe_noext : output_exe "noext" = "noext.exe".
Proof. reflexivity. Qed.

(** The console is all the builder touches. *)
Lemma main_keeps_fs (argv : list string) (w : World) :
  fs (snd (main argv w)) = fs w.
Proof. unfold main. repeat case_match; reflexivity. Qed.

(** Nothing of the world is looked at to pick the exit code. *)
Lemma main_blind (argv : list string) (w1 w2 : World) :
  fst (main argv w1) = fst (main argv w2).
Proof. unfold main. repeat case_match; reflexivity. Qed.

(** C6.  The two sample names come out as the claim says, but the last dot
    is looked for in the whole path and the directory part is never
    removed: an absolute input gives an absolute name, and a dot in the
    directory part is taken for the start of the extension, so the name
    [noext] is lost from [./noext] and from [my.dir/noext]. *)
Theorem output_exe_keeps_directory :
  output_exe "game.luau" = "game.exe"
  ∧ output_exe "noext" = "noext.exe"
  ∧ output_exe "/srv/games/game.luau" = "/srv/games/game.exe"
  ∧ output_exe "C:\games\game.luau" = "C:\games\game.exe"
  ∧ output_exe "./noext" = ".exe"
  ∧ output_exe "my.dir/noext" = "my.exe".
Proof. repeat split; reflexivity. Qed.

(** C7.  [build game.luau] next to an existing [game.luau]: the builder
    returns 0 and has announced [./game.exe], but the file system is what
    it was; no [game.exe] exists and the last line printed is the TODO
    notice. *)
Theorem build_writes_no_image :
  let run := main ["lunu-builder"; "build"; "game.luau"] (world_of project) in
  is_Some (files project !! "game.luau")
  ∧ fst run = 0
  ∧ fs (snd run) = project
  ∧ files (fs (snd run)) !! output_exe "game.luau" = None
  ∧ last (out (snd run)) =
      Some ("[Builder] TODO: Implement Luau compilation & packing logic here."
            +:+ nl).
Proof. vm_compute. repeat split; eauto. Qed.

(** C8.  [build missing.luau] where no file of that name exists: the
    builder never opens its input, prints what it prints for any script and
    returns 0, where the claim asks for exit code 1. *)
Lemma build_missing_input_exits_0 :
  files project !! "missing.luau" = None
  ∧ ("missing.luau" ∉ dirs project)
  ∧ fst (main ["lunu-builder"; "build"; "missing.luau"] (world_of project)) ≠ 1
  ∧ fst (main ["lunu-builder"; "build"; "missing.luau"] (world_of project)) = 0
  ∧ err (snd (main ["lunu-builder"; "build"; "missing.luau"] (world_of project)))
    = [].
Proof.
  split; [by vm_compute|]. split; [set_solver|]. by vm_compute.
Qed.

End BuilderFacts.


(** * Facts about the launcher *)

Module StubFacts.
Import OS Win32 Stub Scenario.

(** ** Exit codes as DWORDs *)

Lemma DWORD_range (z : Z) : 0 ≤ DWORD z < 2 ^ 32.
Proof. unfold DWORD. apply Z.mod_pos_bound. lia. Qed.

(** [DWORD -> int -> DWORD] gives the value back. *)
Lemma DWORD_int_of_DWORD (d : Z) :
  0 ≤ d < 2 ^ 32 → DWORD (int_of_DWORD d) = d.
Proof.
  intros Hd. unfold int_of_DWORD, DWORD. destruct (Z.ltb_spec d (2 ^ 31)).
  - apply Z.mod_small. lia.
  - replace (d - 2 ^ 32) with (d + (-1) * 2 ^ 32) by lia.
    rewrite Z.mod_add by lia. apply Z.mod_small. lia.
Qed.

(** ** Each step of [main], as an equation *)

Lemma panic_eq {A} (msg : string) (w : World) :
  @panic A msg w = (inl (Exited 1), panicked msg w).
Proof. reflexivity. Qed.

Lemma extract_payload_eq (exe_path out_dir : string) (w : World) :
  extract_payload exe_path out_dir w =
  (inr tt, put_out ("[Stub] Extracting payload from " +:+ exe_path +:+
                    " to " +:+ out_dir +:+ "..." +:+ nl) w).
Proof. reflexivity. Qed.

Lemma create_temp_dir_eq (h : Host) (u : string) (w : World) :
  create_temp_dir h u w =
  if exists_path (fs w) u
  then (inr tt, set_last_error ERROR_ALREADY_EXISTS w)
  else match create_fault h u with
       | None => (inr tt, set_fs (add_dir u (fs w)) w)
       | Some e =>
           if e =? ERROR_ALREADY_EXISTS then (inr tt, set_last_error e w)
           else (inl (Exited 1),
                 panicked "Failed to create temp directory" (set_last_error e w))
       end.
Proof.
  unfold create_temp_dir, CreateDirectoryA, GetLastError, mbind, run_bind,
    mret, run_ret.
  destruct (exists_path (fs w) u); [reflexivity|].
  destruct (create_fault h u) as [e|]; [|reflexivity].
  cbn [last_error set_last_error]. by destruct (e =? ERROR_ALREADY_EXISTS).
Qed.

Lemma create_temp_dir_calls (h : Host) (u : string) (w : World) :
  calls (snd (create_temp_dir h u w)) = calls w.
Proof. rewrite create_temp_dir_eq. by repeat case_match. Qed.

Lemma create_temp_dir_fatal (h : Host) (u : string) (w w1 : World) (o : Outcome) :
  create_temp_dir h u w = (inl o, w1) → o = Exited 1.
Proof. rewrite create_temp_dir_eq. by repeat case_match; intros [= <- <-]. Qed.

Lemma run_lune_eq (h : Host) (cmd u : string) (w : World) :
  run_lune h cmd u w =
  match program h cmd u (fs w) with
  | None =>
      (inl (Exited 1),
       panicked "Failed to start Lune runtime" (log_call (Spawn cmd u false) w))
  | Some RunsForever => (inl Blocked, log_call (Spawn cmd u true) w)
  | Some (Terminates c after) =>
      (inr (DWORD c),
       log_call (Reaped (DWORD c)) (set_fs after (log_call (Spawn cmd u true) w)))
  end.
Proof.
  unfold run_lune, CreateProcessA, mbind, run_bind.
  destruct (program h cmd u (fs w)) as [[c after|]|]; reflexivity.
Qed.

Lemma main_eq (h : Host) (w : World) :
  let u := unique_dir_of (temp_root h) (process_id h) in
  let cmd := cmd_line_of (lune_path_of u) (script_path_of u) in
  main h w =
  match module_file_name h with
  | None => (inl (Exited 1), panicked "Failed to get executable path" w)
  | Some p =>
      if fits h then
        match create_temp_dir h u w with
        | (inl o, w1) => (inl o, w1)
        | (inr _, w1) =>
            let w2 := snd (extract_payload (substring 0 (MAX_PATH - 1) p) u w1) in
            if paths_fit u then
              match run_lune h cmd u w2 with
              | (inl o, w3) => (inl o, w3)
              | (inr c, w3) => (inr (int_of_DWORD c), w3)
              end
            else (inl Undefined, w2)
        end
      else (inl Undefined, w)
  end.
Proof.
  intros u cmd. unfold main, fits, paths_fit, GetModuleFileNameA, GetTempPathA,
    GetCurrentProcessId, sprintf, halt, mbind, run_bind, mret, run_ret.
  destruct (module_file_name h) as [p|]; [|reflexivity].
  cbn [fmap option_fmap option_map].
  destruct (String.length (temp_root h) <? MAX_PATH)%nat; [|reflexivity].
  fold u. destruct (String.length u <? MAX_PATH)%nat; [|reflexivity].
  cbn [andb]. destruct (create_temp_dir h u w) as [[o|[]] w1]; [reflexivity|].
  rewrite extract_payload_eq. cbn [snd].
  destruct (String.length (lune_path_of u) <? MAX_PATH)%nat; [|reflexivity].
  destruct (String.length (script_path_of u) <? MAX_PATH)%nat; [|reflexivity].
  fold cmd. cbn [andb].
  destruct (String.length cmd <? MAX_PATH * 2)%nat; [|reflexivity].
  by destruct (run_lune h cmd u _) as [[o|c] w3].
Qed.

(** The ways a launcher run can go, told by its process calls. *)
Lemma launcher_trace (h : Host) (w : World) :
  let u := unique_dir_of (temp_root h) (process_id h) in
  let cmd := cmd_line_of (lune_path_of u) (script_path_of u) in
  let o := fst (launcher h w) in
  let w' := snd (launcher h w) in
  (calls w' = calls w ∧ (o = Exited 1 ∨ o = Undefined))
  ∨ (calls w' = Spawn cmd u false :: calls w ∧ o = Exited 1)
  ∨ (calls w' = Spawn cmd u true :: calls w ∧ o = Blocked)
  ∨ (∃ c, calls w' = Reaped c :: Spawn cmd u true :: calls w ∧ o = Exited c).
Proof.
  intros u cmd o w'. subst o w'. unfold launcher. rewrite main_eq. fold u cmd.
  destruct (module_file_name h) as [p|]; [|left; auto].
  destruct (fits h); [|left; auto].
  pose proof (create_temp_dir_calls h u w) as Hw1.
  destruct (create_temp_dir h u w) as [[o|[]] w1] eqn:Hmk; cbn [snd] in Hw1.
  { left. split; [done|]. left. eapply create_temp_dir_fatal, Hmk. }
  rewrite extract_payload_eq. cbn [snd].
  destruct (paths_fit u); [|left; auto].
  rewrite run_lune_eq. cbn [fs put_out].
  destruct (program h cmd u (fs w1)) as [[c after|]|]; cbn [fst snd].
  - right; right; right. exists (DWORD c). cbn [calls log_call set_fs put_out].
    rewrite Hw1. split; [done|].
    by rewrite DWORD_int_of_DWORD by apply DWORD_range.
  - right; right; left. cbn [calls log_call put_out]. by rewrite Hw1.
  - right; left. cbn. by rewrite Hw1.
Qed.

(** The calls a run adds to the log are one of four lists. *)
Lemma launcher_new_calls (h : Host) (w : World) (new : list Call) :
  let u := unique_dir_of (temp_root h) (process_id h) in
  let cmd := cmd_line_of (lune_path_of u) (script_path_of u) in
  calls (snd (launcher h w)) = new ++ calls w →
  (new = [] ∧ fst (launcher h w) ≠ Blocked)
  ∨ (new = [Spawn cmd u false] ∧ fst (launcher h w) = Exited 1)
  ∨ (new = [Spawn cmd u true] ∧ fst (launcher h w) = Blocked)
  ∨ (∃ c, new = [Reaped c; Spawn cmd u true] ∧ fst (launcher h w) = Exited c).
Proof.
  intros u cmd Hnew.
  destruct (launcher_trace h w) as [[Hc Ho]|[[Hc Ho]|[[Hc Ho]|(c & Hc & Ho)]]];
    fold u cmd in Hc; rewrite Hc in Hnew.
  - left. split.
    + apply (app_inv_tail (calls w)). by rewrite <- Hnew.
    + by destruct Ho as [-> | ->].
  - right; left. split; [|done].
    by apply (app_inv_tail (calls w)).
  - right; right; left. split; [|done].
    by apply (app_inv_tail (calls w)).
  - right; right; right. exists c. split; [|done].
    by apply (app_inv_tail (calls w)).
Qed.

(** All a run ever writes to stderr is one of [main]'s three [panic]
    reports; none of them is about the archive. *)
Lemma launcher_reports (h : Host) (w : World) :
  err (snd (launcher h w)) = err w
  ∨ ∃ msg,
      msg ∈ ["Failed to get executable path";
             "Failed to create temp directory";
             "Failed to start Lune runtime"]
      ∧ fst (launcher h w) = Exited 1
      ∧ err (snd (launcher h w))
        = (err w ++ [nl +:+ "[Lunu Stub] CRITICAL: " +:+ msg +:+ nl])
          ++ ["Press Enter to exit..." +:+ nl].
Proof.
  unfold launcher. rewrite main_eq.
  destruct (module_file_name h) as [p|].
  2:{ right. exists "Failed to get executable path". split; [set_solver|done]. }
  destruct (fits h); [|by left].
  rewrite create_temp_dir_eq.
  set (u := unique_dir_of (temp_root h) (process_id h)).
  assert (Hgo : ∀ w1, err w1 = err w →
    let w2 := snd (extract_payload (substring 0 (MAX_PATH - 1) p) u w1) in
    let r := if paths_fit u
             then match run_lune h (cmd_line_of (lune_path_of u) (script_path_of u))
                          u w2 with
                  | (inl o, w3) => (inl o, w3)
                  | (inr c, w3) => (inr (int_of_DWORD c), w3)
                  end
             else (inl Undefined, w2) in
    let r' := match r with
              | (inl o, w') => (o, w')
              | (inr c, w') => (Exited (DWORD c), w')
              end in
    err (snd r') = err w
    ∨ ∃ msg, msg ∈ ["Failed to get executable path";
                    "Failed to create temp directory";
                    "Failed to start Lune runtime"]
        ∧ fst r' = Exited 1
        ∧ err (snd r')
          = (err w ++ [nl +:+ "[Lunu Stub] CRITICAL: " +:+ msg +:+ nl])
            ++ ["Press Enter to exit..." +:+ nl]).
  { intros w1 Hw1. cbv zeta. rewrite extract_payload_eq. cbn [snd].
    destruct (paths_fit u); [|by left].
    rewrite run_lune_eq. cbn [fs put_out].
    destruct (program h _ u (fs w1)) as [[c after|]|]; cbn [fst snd].
    - by left.
    - by left.
    - right. exists "Failed to start Lune runtime".
      split; [set_solver|]. split; [done|]. cbn. by rewrite Hw1. }
  destruct (exists_path (fs w) u); [by apply Hgo|].
  destruct (create_fault h u) as [e|]; [|by apply Hgo].
  destruct (e =? ERROR_ALREADY_EXISTS); [by apply Hgo|].
  right. exists "Failed to create temp directory". split; [set_solver|done].
Qed.

(** ** The temporary directory *)

Lemma host_keeps_dir (code : Z) (d : string) : keeps_dir (host code) d.
Proof.
  intros cmd cwd f c after Hrun Hd. cbn in Hrun. unfold runtime in Hrun.
  case_match; by simplify_eq.
Qed.

(** C1.  A directory this run has made is still there when the launcher is
    over, however it ends: [main] has no call that removes anything (the
    removal under its [Cleanup] comment is commented out) and [panic] leaves
    through [exit] at once.  Only a started program could take the
    directory away. *)
Theorem temp_dir_outlives_launcher (h : Host) (w : World) (p : string) :
  let u := unique_dir_of (temp_root h) (process_id h) in
  module_file_name h = Some p →
  fits h = true →
  exists_path (fs w) u = false →
  create_fault h u = None →
  keeps_dir h u →
  u ∈ dirs (fs (snd (launcher h w))).
Proof.
  intros u Hexe Hfits Hnew Hfault Hkeeps.
  unfold launcher. rewrite main_eq. fold u.
  rewrite Hexe, Hfits, create_temp_dir_eq, Hnew, Hfault, extract_payload_eq.
  cbn [snd]. destruct (paths_fit u).
  - rewrite run_lune_eq. cbn [fs put_out set_fs].
    destruct (program h _ u (add_dir u (fs w))) as [[c after|]|] eqn:Hrun;
      cbn [snd fs set_fs log_call panicked read_key put_err put_out].
    + eapply Hkeeps; [exact Hrun|]. unfold add_dir. cbn [dirs]. set_solver.
    + unfold add_dir. cbn [dirs]. set_solver.
    + unfold add_dir. cbn [dirs]. set_solver.
  - cbn [snd fs put_out set_fs]. unfold add_dir. cbn [dirs]. set_solver.
Qed.

Lemma temp_dir_outlives_launcher_witness :
  fst (launcher (host 7) (world_of (fresh image_script))) = Exited 1
  ∧ temp_dir ∈ dirs (fs (snd (launcher (host 7) (world_of (fresh image_script))))).
Proof.
  split; [by vm_compute|].
  apply (temp_dir_outlives_launcher (host 7) (world_of (fresh image_script)) exe).
  - reflexivity.
  - by vm_compute.
  - by vm_compute.
  - reflexivity.
  - apply host_keeps_dir.
Defined.

(** C9.  The creation step goes on when the directory is already there,
    also when it is run a second time after it went through once; it goes on
    whenever [CreateDirectoryA] fails with [ERROR_ALREADY_EXISTS], and any
    other failure of [CreateDirectoryA] ends the launcher through
    [panic("Failed to create temp directory")], exit status 1. *)
Theorem create_temp_dir_tolerates_existing (h : Host) (u : string) (w : World) :
  (u ∈ dirs (fs w) →
     create_temp_dir h u w = (inr tt, set_last_error ERROR_ALREADY_EXISTS w))
  ∧ (∀ w1, create_temp_dir h u w = (inr tt, w1) →
       ∃ w2, create_temp_dir h u w1 = (inr tt, w2))
  ∧ (∀ w1, CreateDirectoryA h u w = (inr false, w1) →
       last_error w1 = ERROR_ALREADY_EXISTS →
       create_temp_dir h u w = (inr tt, w1))
  ∧ (∀ w1, CreateDirectoryA h u w = (inr false, w1) →
       last_error w1 ≠ ERROR_ALREADY_EXISTS →
       create_temp_dir h u w =
       (inl (Exited 1), panicked "Failed to create temp directory" w1)).
Proof.
  split; [|split; [|split]].
  - intros Hu. rewrite create_temp_dir_eq. unfold exists_path.
    by rewrite (bool_decide_eq_true_2 _ Hu).
  - intros w1. rewrite !create_temp_dir_eq.
    destruct (exists_path (fs w) u) eqn:Hex.
    + intros [= <-]. cbn [fs set_last_error]. rewrite Hex. eauto.
    + destruct (create_fault h u) as [e|] eqn:Hfault.
      * destruct (e =? ERROR_ALREADY_EXISTS) eqn:He; [|done].
        intros [= <-]. cbn [fs set_last_error]. rewrite Hex. eauto.
      * intros [= <-]. cbn [fs set_fs]. unfold exists_path, add_dir. cbn [dirs].
        rewrite bool_decide_eq_true_2 by set_solver. eauto.
  - intros w1. rewrite create_temp_dir_eq. unfold CreateDirectoryA.
    destruct (exists_path (fs w) u); [by intros [= <-]|].
    destruct (create_fault h u) as [e|]; [|done].
    intros [= <-]. cbn [last_error set_last_error]. intros ->. done.
  - intros w1. rewrite create_temp_dir_eq. unfold CreateDirectoryA.
    destruct (exists_path (fs w) u); [by intros [= <-]|].
    destruct (create_fault h u) as [e|]; [|done].
    intros [= <-]. cbn [last_error set_last_error]. intros He.
    by destruct (Z.eqb_spec e ERROR_ALREADY_EXISTS).
Qed.

Lemma create_temp_dir_tolerates_existing_witness :
  (∃ w1, create_temp_dir (host 7) temp_dir (world_of (fresh image_script))
         = (inr tt, w1)
       ∧ ∃ w2, create_temp_dir (host 7) temp_dir w1 = (inr tt, w2))
  ∧ create_temp_dir (host 7) temp_dir (world_of (stale image_script))
    = (inr tt, set_last_error 183 (world_of (stale image_script)))
  ∧ create_temp_dir host_read_only temp_dir (world_of (fresh image_script))
    = (inl (Exited 1),
       panicked "Failed to create temp directory"
         (set_last_error 5 (world_of (fresh image_script)))).
Proof.
  split; [|split].
  - eexists. split; [reflexivity|].
    eapply (create_temp_dir_tolerates_existing (host 7) temp_dir
              (world_of (fresh image_script))).
    reflexivity.
  - apply (proj1 (create_temp_dir_tolerates_existing (host 7) temp_dir
                    (world_of (stale image_script)))).
    apply (bool_decide_unpack _). by vm_compute.
  - apply (create_temp_dir_tolerates_existing host_read_only temp_dir
             (world_of (fresh image_script))).
    + reflexivity.
    + by vm_compute.
Defined.

(** ** Exit code and child process *)

(** C5.  Whenever a run gets as far as reading the exit code [c] of its
    child, the launcher's own exit status is [c]. *)
Theorem exit_code_forwarded (h : Host) (w : World) (c : Z) (new : list Call) :
  calls (snd (launcher h w)) = new ++ calls w →
  Reaped c ∈ new →
  fst (launcher h w) = Exited c.
Proof.
  intros Hnew Hc.
  destruct (launcher_new_calls h w new Hnew)
    as [[-> _]|[[-> _]|[[-> _]|(c' & -> & Ho)]]].
  - by apply elem_of_nil in Hc.
  - apply list_elem_of_singleton in Hc. discriminate.
  - apply list_elem_of_singleton in Hc. discriminate.
  - apply elem_of_cons in Hc as [[= ->]|Hc]; [done|].
    apply list_elem_of_singleton in Hc. discriminate.
Qed.

(** A runtime that always exits with code 7, started from the directory an
    earlier run left behind: the launcher exits with 7. *)
Lemma exit_code_forwarded_witness :
  fst (launcher (host 7) (world_of (stale image_script))) = Exited 7.
Proof.
  apply (exit_code_forwarded (host 7) (world_of (stale image_script)) 7
           [Reaped 7;
            Spawn (cmd_line_of (lune_path_of temp_dir) (script_path_of temp_dir))
                  temp_dir true]).
  - by vm_compute.
  - constructor.
Defined.

(** C10.  Every [CreateProcessA] call of a run, started or not, asks for
    the command line ["<dir>\bin\lune.exe" run "<dir>\src\main.luau"] with
    [<dir>] as working directory, where [<dir>] is the temp root followed by
    [lunu_] and the process id in decimal. *)
Theorem spawn_request (h : Host) (w : World) (cmd cwd : string) (ok : bool)
    (new : list Call) :
  let dir := temp_root h +:+ "lunu_" +:+ pretty (process_id h) in
  calls (snd (launcher h w)) = new ++ calls w →
  Spawn cmd cwd ok ∈ new →
  cwd = dir
  ∧ cmd = dquote +:+ (dir +:+ "\bin\lune.exe") +:+ dquote +:+ " run " +:+
          dquote +:+ (dir +:+ "\src\main.luau") +:+ dquote.
Proof.
  intros dir Hnew Hc.
  destruct (launcher_new_calls h w new Hnew)
    as [[-> _]|[[-> _]|[[-> _]|(c' & -> & Ho)]]].
  - by apply elem_of_nil in Hc.
  - apply list_elem_of_singleton in Hc. by injection Hc as -> -> ->.
  - apply list_elem_of_singleton in Hc. by injection Hc as -> -> ->.
  - apply elem_of_cons in Hc as [[=]|Hc].
    apply list_elem_of_singleton in Hc. by injection Hc as -> -> ->.
Qed.

Lemma spawn_request_witness :
  let cmd := dquote +:+ "C:\Temp\lunu_4242\bin\lune.exe" +:+ dquote +:+ " run " +:+
             dquote +:+ "C:\Temp\lunu_4242\src\main.luau" +:+ dquote in
  calls (snd (launcher (host 7) (world_of (stale image_script))))
    = [Reaped 7; Spawn cmd "C:\Temp\lunu_4242" true]
  ∧ "C:\Temp\lunu_4242" = "C:\Temp\" +:+ "lunu_" +:+ pretty 4242%N
  ∧ cmd = dquote +:+ (("C:\Temp\" +:+ "lunu_" +:+ pretty 4242%N) +:+ "\bin\lune.exe")
          +:+ dquote +:+ " run " +:+
          dquote +:+ (("C:\Temp\" +:+ "lunu_" +:+ pretty 4242%N) +:+ "\src\main.luau")
          +:+ dquote.
Proof.
  intros cmd. split; [by vm_compute|].
  apply (spawn_request (host 7) (world_of (stale image_script))
           cmd "C:\Temp\lunu_4242" true
           [Reaped 7; Spawn cmd "C:\Temp\lunu_4242" true]).
  - by vm_compute.
  - right. left.
Defined.

(** ** [extract_payload] *)

(** C2.  The image carries one entry, [src/main.luau] with the bytes of
    [print(1)].  [extract_payload] run on it for the fresh directory returns
    with the file system as it was: no file [src\main.luau] has appeared
    under the directory.  The whole launcher then fails to start the
    runtime and exits with 1, the image still the only file on disk. *)
Theorem payload_not_extracted :
  let w := world_of (add_dir temp_dir (fresh image_script)) in
  let w' := snd (extract_payload exe temp_dir w) in
  let run := launcher (host 7) (world_of (fresh image_script)) in
  Zip.entries image_script
    = Some [("src/main.luau", [112; 114; 105; 110; 116; 40; 49; 41])]
  ∧ fs w' = fs w
  ∧ files (fs w') !! (temp_dir +:+ "\src\main.luau") = None
  ∧ fst run = Exited 1
  ∧ files (fs (snd run)) = {[ exe := image_script ]}
  ∧ last (err (snd run)) = Some ("Press Enter to exit..." +:+ nl).
Proof. cbv zeta. repeat split; by vm_compute. Qed.

(** C3.  The image is the bare template: the EOCD signature stands nowhere
    in it.  The launcher reports nothing about the archive.  Where an
    earlier run left a runtime behind it starts that runtime and exits
    with its code; on a fresh disk the one thing it reports is that the
    runtime could not be started, after it asked for it. *)
Theorem missing_archive_not_reported :
  let stale_run := launcher (host 7) (world_of (stale launcher_template)) in
  let fresh_run := launcher (host 7) (world_of (fresh launcher_template)) in
  Zip.rearmost_signature launcher_template = None
  ∧ Zip.entries launcher_template = None
  ∧ fst stale_run = Exited 7
  ∧ err (snd stale_run) = []
  ∧ fst fresh_run = Exited 1
  ∧ err (snd fresh_run)
    = [nl +:+ "[Lunu Stub] CRITICAL: Failed to start Lune runtime" +:+ nl;
       "Press Enter to exit..." +:+ nl]
  ∧ calls (snd fresh_run)
    = [Spawn (cmd_line_of (lune_path_of temp_dir) (script_path_of temp_dir))
             temp_dir false].
Proof. cbv zeta. repeat split; by vm_compute. Qed.

(** C4.  The image carries the entry [../outside.txt], whose path leaves
    the destination.  [extract_payload] never looks at the entries of the
    image: it returns normally, no failure is raised, and the launcher goes
    on and runs the runtime, where the claim asks for an [UnsafePath]
    failure. *)
Lemma unsafe_entry_not_rejected :
  Zip.entries image_outside
    = Some [("../outside.txt", [112; 119; 110; 101; 100])]
  ∧ Zip.escapes "../outside.txt" = true
  ∧ fst (extract_payload exe temp_dir (world_of (stale image_outside))) = inr tt
  ∧ (∀ o, fst (extract_payload exe temp_dir (world_of (stale image_outside)))
          ≠ inl o)
  ∧ fst (launcher (host 7) (world_of (stale image_outside))) = Exited 7.
Proof. repeat split; by vm_compute. Qed.

End StubFacts.


(** * More about the builder *)

Module BuilderProps.
Import OS Cxx Builder Scenario BuilderFacts.

Lemma length_append (s t : string) :
  String.length (s +:+ t) = (String.length s + String.length t)%nat.
Proof.
  induction s as [|a s IH]; [done|]. rewrite append_cons. simpl. by rewrite IH.
Qed.

Lemma occurs_dot (a : ascii) : occurs a "." = true → a = "."%char.
Proof.
  unfold occurs. intros H%bool_decide_eq_true. cbn in H.
  by apply list_elem_of_singleton in H.
Qed.

(** A string with a dot splits at its last dot. *)
Lemma find_last_of_split (s : string) (i : nat) :
  find_last_of s "." = at_pos i →
  ∃ base ext, s = base +:+ "." +:+ ext ∧ dotless ext ∧ String.length base = i.
Proof.
  revert i. induction s as [|a s IH]; intros i; [done|]. simpl.
  destruct (find_last_of s ".") as [j|] eqn:Hs.
  - intros [= <-]. destruct (IH j eq_refl) as (base & ext & -> & Hext & Hlen).
    exists (String a base), ext. rewrite append_cons. simpl. by rewrite Hlen.
  - destruct (occurs a ".") eqn:Ha; [|done]. intros [= <-].
    apply occurs_dot in Ha as ->. by exists EmptyString, s.
Qed.

(** Every name is dotless or splits at its last dot, with the derived name
    to match. *)
Lemma output_exe_cases (filename : string) :
  (dotless filename ∧ output_exe filename = filename +:+ ".exe")
  ∨ (∃ base ext, filename = base +:+ "." +:+ ext ∧ dotless ext
                 ∧ output_exe filename = base +:+ ".exe").
Proof.
  destruct (find_last_of filename ".") as [i|] eqn:Hf.
  - right. destruct (find_last_of_split _ _ Hf) as (base & ext & -> & Hext & _).
    exists base, ext. by rewrite output_exe_dotted.
  - left. split; [done|]. by apply output_exe_dotless.
Qed.

(** X1.  [output_exe] cuts the name at its last dot, wherever that dot
    stands, and puts [.exe] there; a name without any dot gets [.exe]
    appended.  Every name falls under one of the two cases. *)
Theorem output_exe_by_last_dot (filename : string) :
  (dotless filename ∧ output_exe filename = filename +:+ ".exe")
  ∨ (∃ base ext, filename = base +:+ "." +:+ ext ∧ dotless ext
                 ∧ output_exe filename = base +:+ ".exe").
Proof. apply output_exe_cases. Qed.

(** X2.  Deriving the output name of an output name changes nothing. *)
Theorem output_exe_idempotent (filename : string) :
  output_exe (output_exe filename) = output_exe filename.
Proof.
  assert (Hexe : ∀ stem, output_exe (stem +:+ ".exe") = stem +:+ ".exe").
  { intros stem. by apply (output_exe_dotted stem "exe"). }
  destruct (output_exe_cases filename)
    as [[_ ->]|(base & ext & _ & _ & ->)]; apply Hexe.
Qed.

Lemma append_assoc (s t r : string) : (s +:+ t) +:+ r = s +:+ t +:+ r.
Proof.
  induction s as [|a s IH]; [done|]. rewrite !append_cons. by rewrite IH.
Qed.

(** X3.  The derived name is a prefix of the input followed by [.exe]:
    no character of the input is changed, and the name grows by at most
    four characters. *)
Theorem output_exe_prefix (filename : string) :
  ∃ stem rest,
    filename = stem +:+ rest
    ∧ output_exe filename = stem +:+ ".exe"
    ∧ (String.length (output_exe filename) ≤ String.length filename + 4)%nat.
Proof.
  destruct (output_exe_cases filename)
    as [[_ Hout]|(base & ext & Hf & _ & Hout)].
  - exists filename, EmptyString. rewrite Hout, length_append.
    split; [|split; [done|simpl; lia]].
    clear. induction filename as [|a s IH]; [done|].
    rewrite append_cons. by rewrite <- IH.
  - exists base, ("." +:+ ext). rewrite Hout. split; [done|]. split; [done|].
    rewrite Hf, !length_append. simpl. lia.
Qed.

(** X4.  The builder returns 0 or 1, and 0 exactly when the command is
    [version], or [build] with a file argument. *)
Theorem main_exit_code (argv : list string) (w : World) :
  (fst (main argv w) = 0 ∨ fst (main argv w) = 1)
  ∧ (fst (main argv w) = 0 ↔
       (∃ prog rest, argv = prog :: "version" :: rest)
       ∨ (∃ prog file rest, argv = prog :: "build" :: file :: rest)).
Proof.
  unfold main, arg.
  destruct argv as [|prog [|command rest]]; cbn [length nth].
  - split; [by right|]. split; [done|]. by intros [(?&?&?)|(?&?&?&?)].
  - split; [by right|]. split; [done|]. by intros [(?&?&?)|(?&?&?&?)].
  - destruct (Z.ltb_spec (Z.of_nat (S (S (length rest)))) 2); [lia|].
    destruct (String.eqb_spec command "version") as [->|Hv].
    { split; [by left|]. split; [|done]. intros _. left. eauto. }
    destruct (String.eqb_spec command "build") as [->|Hb].
    + destruct rest as [|file rest]; cbn [length].
      * split; [by right|]. split; [done|].
        by intros [(?&?&?)|(?&?&?&?)].
      * destruct (Z.ltb_spec (Z.of_nat (S (S (S (length rest))))) 3); [lia|].
        split; [by left|]. split; [|done]. intros _. right. eauto.
    + split; [by right|]. split; [done|].
      intros [(?&?&?)|(?&?&?&?)]; simplify_eq.
Qed.

(** X6.  Of its arguments [main] reads the command and, after it, one
    more: the program name and everything past the file argument make no
    difference, also to what is printed. *)
Theorem main_reads_two_arguments (prog prog' command : string)
    (args : list string) (w : World) :
  main (prog :: command :: args) w = main (prog' :: command :: take 1 args) w.
Proof.
  unfold main, arg. cbn [length nth].
  destruct (Z.ltb_spec (Z.of_nat (S (S (length args)))) 2); [lia|].
  destruct (Z.ltb_spec (Z.of_nat (S (S (length (take 1 args))))) 2); [lia|].
  destruct (command =? "version")%string; [done|].
  destruct (command =? "build")%string; [|done].
  destruct args as [|file rest]; [done|]. cbn [take length nth].
  destruct (Z.ltb_spec (Z.of_nat (S (S (S (length rest))))) 3); [lia|].
  done.
Qed.

(** X7.  A builder run appends lines to stdout and stderr and does nothing
    else, and both the lines and the exit code depend on the arguments
    alone. *)
Theorem main_only_prints (argv : list string) :
  ∃ code o e, ∀ w,
    main argv w =
    (code, mkWorld (fs w) (out w ++ o) (err w ++ e)
                   (last_error w) (keys_read w) (calls w)).
Proof.
  unfold main, print_usage, cout, cerr, put_out, put_err.
  destruct (Z.of_nat (length argv) <? 2).
  { eexists 1, [_; _; _; _; _], []. intros [f o e l k c]. cbn.
    by rewrite <- !app_assoc, app_nil_r. }
  destruct (arg argv 1 =? "version")%string.
  { eexists 0, [_], []. intros [f o e l k c]. cbn. by rewrite app_nil_r. }
  destruct (arg argv 1 =? "build")%string.
  - destruct (Z.of_nat (length argv) <? 3).
    { eexists 1, [], [_]. intros [f o e l k c]. cbn. by rewrite app_nil_r. }
    eexists 0, [_; _; _; _], []. intros [f o e l k c]. cbn.
    by rewrite <- !app_assoc, app_nil_r.
  - eexists 1, [_; _; _; _; _], [_]. intros [f o e l k c]. cbn.
    by rewrite <- !app_assoc.
Qed.

(** X5.  A run that returns 0 writes nothing to stderr; a run without a
    command prints the usage text on stdout only; a run that rejects a given
    command appends one message to stderr: [Error: Missing file argument.]
    for [build] without a file, [Unknown command: ] and the command as it
    was given otherwise, each ended by [endl]. *)
Theorem main_stderr (argv : list string) (w : World) :
  (fst (main argv w) = 0 → err (snd (main argv w)) = err w)
  ∧ ((length argv < 2)%nat →
       err (snd (main argv w)) = err w
       ∧ snd (main argv w) = print_usage w)
  ∧ (∀ prog, argv = [prog; "build"] →
       err (snd (main argv w))
       = err w ++ ["Error: Missing file argument." +:+ nl])
  ∧ (∀ prog command rest, argv = prog :: command :: rest →
       command ≠ "version" → command ≠ "build" →
       err (snd (main argv w))
       = err w ++ ["Unknown command: " +:+ command +:+ nl]).
Proof.
  split; [|split; [|split]].
  - unfold main. repeat case_match; done.
  - intros Hlen. unfold main.
    destruct (Z.ltb_spec (Z.of_nat (length argv)) 2); [done|lia].
  - by intros prog ->.
  - intros prog command rest -> Hv Hb. unfold main, arg. cbn [length nth].
    destruct (Z.ltb_spec (Z.of_nat (S (S (length rest)))) 2); [lia|].
    destruct (String.eqb_spec command "version"); [done|].
    by destruct (String.eqb_spec command "build").
Qed.

Lemma main_stderr_witness :
  err (snd (main ["lunu-builder"; "version"] (world_of project))) = []
  ∧ snd (main [] (world_of project)) = print_usage (world_of project)
  ∧ err (snd (main ["lunu-builder"; "build"] (world_of project)))
    = ["Error: Missing file argument." +:+ nl]
  ∧ err (snd (main ["lunu-builder"; "pack"] (world_of project)))
    = ["Unknown command: pack" +:+ nl].
Proof.
  pose proof (main_stderr ["lunu-builder"; "version"] (world_of project))
    as (H0 & _).
  pose proof (main_stderr [] (world_of project)) as (_ & Hnone & _).
  pose proof (main_stderr ["lunu-builder"; "build"] (world_of project))
    as (_ & _ & Hbuild & _).
  pose proof (main_stderr ["lunu-builder"; "pack"] (world_of project))
    as (_ & _ & _ & Hpack).
  split; [by apply H0|].
  split; [apply Hnone; simpl; lia|].
  split; [by apply (Hbuild "lunu-builder")|].
  by apply (Hpack "lunu-builder" "pack" []).
Defined.

End BuilderProps.


(** * More about the launcher *)

Module StubProps.
Import OS Win32 Stub Scenario Observe BuilderFacts StubFacts BuilderProps.

(** X8.  An exit code read as a DWORD survives the trip through the [int]
    that [main] returns: the [int] is in range and gives the same DWORD
    back, also for codes above [2^31] such as [0xC0000005]. *)
Theorem exit_status_round_trip (d : Z) :
  0 ≤ d < 2 ^ 32 →
  - 2 ^ 31 ≤ int_of_DWORD d < 2 ^ 31 ∧ DWORD (int_of_DWORD d) = d.
Proof.
  intros Hd. split; [|by apply DWORD_int_of_DWORD].
  unfold int_of_DWORD. destruct (Z.ltb_spec d (2 ^ 31)); lia.
Qed.

Lemma exit_status_round_trip_witness :
  int_of_DWORD 3221225477 = -1073741819 ∧ DWORD (-1073741819) = 3221225477.
Proof.
  destruct (exit_status_round_trip 3221225477) as [_ H]; [lia|].
  split; [reflexivity|]. exact H.
Defined.

(** The three later buffers are large enough up to 241 characters. *)
Lemma paths_fit_241 (u : string) :
  paths_fit u = true ↔ (String.length u ≤ 241)%nat.
Proof.
  unfold paths_fit, lune_path_of, script_path_of, cmd_line_of, MAX_PATH.
  rewrite !andb_true_iff, !Nat.ltb_lt, !length_append. cbn [String.length dquote].
  lia.
Qed.

(** X9.  [lune_path], [script_path] and [cmd_line] all fit their buffers
    exactly when the directory name has at most 241 characters; the bound
    comes from [cmd_line], whose [MAX_PATH * 2] bytes also hold four quotes
    and [ run ]. *)
Theorem paths_fit_iff (u : string) :
  paths_fit u = true ↔ (String.length u ≤ 241)%nat.
Proof. apply paths_fit_241. Qed.

Lemma fits_of_short (h : Host) :
  (String.length (unique_dir_of (temp_root h) (process_id h)) ≤ 241)%nat →
  fits h = true.
Proof.
  unfold fits, unique_dir_of, MAX_PATH. rewrite !length_append.
  intros H. apply andb_true_iff. rewrite !Nat.ltb_lt. lia.
Qed.

(** X11.  With a directory name of at most 241 characters no run ends in
    a buffer overrun, whatever the host does. *)
Theorem short_dir_never_overruns (h : Host) (w : World) :
  (String.length (unique_dir_of (temp_root h) (process_id h)) ≤ 241)%nat →
  fst (launcher h w) ≠ Undefined.
Proof.
  intros Hlen. unfold launcher. rewrite main_eq.
  rewrite (fits_of_short h Hlen), (proj2 (paths_fit_241 _) Hlen).
  destruct (module_file_name h); [|done].
  destruct (create_temp_dir h _ w) as [[o|[]] w1] eqn:Hmk.
  { by rewrite (create_temp_dir_fatal _ _ _ _ _ Hmk). }
  cbv zeta. rewrite run_lune_eq.
  by destruct (program h _ _ _) as [[c after|]|].
Qed.

Lemma short_dir_never_overruns_witness :
  fst (launcher (host 7) (world_of (fresh image_script))) ≠ Undefined.
Proof.
  apply (short_dir_never_overruns (host 7)). vm_compute. lia.
Defined.

(** X10.  A directory name of 242 to 259 characters fits [unique_dir] and
    is created, but the run then overruns a later buffer before any process
    is asked for. *)
Theorem long_dir_overruns_cmd_line (h : Host) (w : World) (p : string) :
  let u := unique_dir_of (temp_root h) (process_id h) in
  module_file_name h = Some p →
  (241 < String.length u < 260)%nat →
  fst (create_temp_dir h u w) = inr tt →
  fst (launcher h w) = Undefined
  ∧ calls (snd (launcher h w)) = calls w.
Proof.
  intros u Hexe [Hlo Hhi] Hmk. unfold launcher. rewrite main_eq. fold u.
  assert (fits h = true) as ->.
  { unfold fits. fold u. apply andb_true_iff. rewrite !Nat.ltb_lt.
    unfold MAX_PATH. split; [|done]. subst u. unfold unique_dir_of in Hhi.
    rewrite !length_append in Hhi. lia. }
  assert (paths_fit u = false) as ->.
  { apply not_true_is_false. rewrite paths_fit_241. lia. }
  rewrite Hexe. pose proof (create_temp_dir_calls h u w) as Hcalls.
  destruct (create_temp_dir h u w) as [[o|[]] w1]; [done|].
  rewrite extract_payload_eq. done.
Qed.

Lemma long_dir_overruns_cmd_line_witness :
  String.length (unique_dir_of long_root 4242) = 242%nat
  ∧ fst (launcher host_long (world_of (fresh image_script))) = Undefined
  ∧ calls (snd (launcher host_long (world_of (fresh image_script)))) = [].
Proof.
  split; [by vm_compute|].
  apply (long_dir_overruns_cmd_line host_long (world_of (fresh image_script)) exe).
  - reflexivity.
  - vm_compute. lia.
  - by vm_compute.
Defined.

(** X12.  All a run ever writes to stderr is one [panic] report with one
    of [main]'s three messages, and such a run exits with 1; every other run
    leaves stderr as it was. *)
Theorem launcher_stderr_reports (h : Host) (w : World) :
  err (snd (launcher h w)) = err w
  ∨ ∃ msg,
      msg ∈ ["Failed to get executable path";
             "Failed to create temp directory";
             "Failed to start Lune runtime"]
      ∧ fst (launcher h w) = Exited 1
      ∧ err (snd (launcher h w))
        = (err w ++ [nl +:+ "[Lunu Stub] CRITICAL: " +:+ msg +:+ nl])
          ++ ["Press Enter to exit..." +:+ nl].
Proof. apply launcher_reports. Qed.

(** X13.  A run asks for at most one process, and it reads an exit code
    only from a process it has started, as its last call. *)
Theorem one_spawn_per_run (h : Host) (w : World) (new : list Call) :
  calls (snd (launcher h w)) = new ++ calls w →
  (length (filter is_spawn new) ≤ 1)%nat
  ∧ (∀ c, Reaped c ∈ new → ∃ cmd cwd, new = [Reaped c; Spawn cmd cwd true]).
Proof.
  intros Hnew.
  destruct (launcher_new_calls h w new Hnew)
    as [[-> _]|[[-> _]|[[-> _]|(c' & -> & _)]]].
  - split; [simpl; lia|]. by intros c Hc%elem_of_nil.
  - split; [simpl; lia|]. intros c Hc%list_elem_of_singleton. discriminate.
  - split; [simpl; lia|]. intros c Hc%list_elem_of_singleton. discriminate.
  - split; [simpl; lia|]. intros c [[= ->]|Hc]%elem_of_cons; [eauto|].
    apply list_elem_of_singleton in Hc. discriminate.
Qed.

Lemma one_spawn_per_run_witness :
  (length (filter is_spawn
     [Reaped 7;
      Spawn (cmd_line_of (lune_path_of temp_dir) (script_path_of temp_dir))
            temp_dir true]) ≤ 1)%nat.
Proof.
  apply (one_spawn_per_run (host 7) (world_of (stale image_script))).
  by vm_compute.
Defined.


(** X14.  When the host cannot name the executable the launcher reports
    it and exits with 1 at once: no directory is made, nothing goes to
    stdout, no process is asked for. *)
Theorem no_module_name_is_fatal (h : Host) (w : World) :
  module_file_name h = None →
  launcher h w = (Exited 1, panicked "Failed to get executable path" w).
Proof. intros Hexe. unfold launcher. by rewrite main_eq, Hexe. Qed.

Lemma no_module_name_is_fatal_witness :
  fst (launcher host_nameless
                (world_of (fresh image_script))) = Exited 1
  ∧ fs (snd (launcher host_nameless
                      (world_of (fresh image_script)))) = fresh image_script.
Proof.
  rewrite (no_module_name_is_fatal host_nameless
             (world_of (fresh image_script)) eq_refl).
  by split.
Defined.

(** What the creation step leaves behind, by the way it ends. *)
Lemma create_temp_dir_effect (h : Host) (u : string) (w w1 : World) :
  (create_temp_dir h u w = (inr tt, w1) →
     (exists_path (fs w1) u = true ∨ create_fault h u = Some ERROR_ALREADY_EXISTS)
     ∧ files (fs w1) = files (fs w)
     ∧ (dirs (fs w1) = dirs (fs w) ∨ dirs (fs w1) = {[u]} ∪ dirs (fs w))
     ∧ out w1 = out w ∧ err w1 = err w ∧ calls w1 = calls w)
  ∧ (∀ o, create_temp_dir h u w = (inl o, w1) →
       o = Exited 1 ∧ fs w1 = fs w ∧ exists_path (fs w) u = false
       ∧ ∃ e, create_fault h u = Some e ∧ e ≠ ERROR_ALREADY_EXISTS
              ∧ last_error w1 = e).
Proof.
  rewrite create_temp_dir_eq. destruct (exists_path (fs w) u) eqn:Hex.
  { split; [|done]. intros [= <-]. cbn. by rewrite Hex; auto 10. }
  destruct (create_fault h u) as [e|] eqn:Hfault.
  - destruct (Z.eqb_spec e ERROR_ALREADY_EXISTS) as [->|He].
    + split; [|done]. intros [= <-]. cbn. auto 10.
    + split; [done|]. intros o [= <- <-]. cbn. eauto 10.
  - split; [|done]. intros [= <-]. cbn. unfold exists_path. cbn.
    rewrite bool_decide_eq_true_2 by set_solver. auto 10.
Qed.

(** X16.  When the creation step returns, the name exists or the host has
    said so, and all it may have changed on disk is to add that one
    directory; when it ends the launcher, the disk is untouched, the name
    did not exist and the host gave another error than
    [ERROR_ALREADY_EXISTS]. *)
Theorem create_temp_dir_postcondition (h : Host) (u : string) (w w1 : World) :
  (create_temp_dir h u w = (inr tt, w1) →
     (exists_path (fs w1) u = true ∨ create_fault h u = Some ERROR_ALREADY_EXISTS)
     ∧ files (fs w1) = files (fs w)
     ∧ (dirs (fs w1) = dirs (fs w) ∨ dirs (fs w1) = {[u]} ∪ dirs (fs w))
     ∧ out w1 = out w ∧ err w1 = err w ∧ calls w1 = calls w)
  ∧ (∀ o, create_temp_dir h u w = (inl o, w1) →
       o = Exited 1 ∧ fs w1 = fs w ∧ exists_path (fs w) u = false
       ∧ ∃ e, create_fault h u = Some e ∧ e ≠ ERROR_ALREADY_EXISTS
              ∧ last_error w1 = e).
Proof. apply create_temp_dir_effect. Qed.

Lemma create_temp_dir_postcondition_witness :
  temp_dir ∈ dirs (fs (snd (create_temp_dir (host 7) temp_dir
                              (world_of (fresh image_script)))))
  ∧ fs (snd (create_temp_dir host_read_only temp_dir
               (world_of (fresh image_script)))) = fresh image_script.
Proof.
  split.
  - destruct (create_temp_dir_postcondition (host 7) temp_dir
                (world_of (fresh image_script))
                (snd (create_temp_dir (host 7) temp_dir
                        (world_of (fresh image_script))))) as [H _].
    destruct (H eq_refl) as (_ & _ & [Hd|Hd] & _).
    + exfalso. by vm_compute in Hd.
    + rewrite Hd. set_solver.
  - destruct (create_temp_dir_postcondition host_read_only temp_dir
                (world_of (fresh image_script))
                (snd (create_temp_dir host_read_only temp_dir
                        (world_of (fresh image_script))))) as [_ H].
    by destruct (H (Exited 1) eq_refl) as (_ & -> & _).
Defined.

(** X19.  A regular file under the directory's name passes the creation
    step as well: the step returns, and the name is still no directory. *)
Theorem create_temp_dir_accepts_file (h : Host) (u : string) (w : World)
    (bytes : list Z) :
  files (fs w) !! u = Some bytes →
  u ∉ dirs (fs w) →
  create_temp_dir h u w = (inr tt, set_last_error ERROR_ALREADY_EXISTS w)
  ∧ u ∉ dirs (fs (snd (create_temp_dir h u w))).
Proof.
  intros Hfile Hdir. rewrite create_temp_dir_eq. unfold exists_path.
  rewrite Hfile. rewrite (bool_decide_eq_true_2 (is_Some (Some bytes))) by eauto.
  by rewrite orb_true_r.
Qed.

Lemma create_temp_dir_accepts_file_witness :
  fst (create_temp_dir (host 7) exe (world_of (fresh image_script))) = inr tt
  ∧ exe ∉ dirs (fs (snd (create_temp_dir (host 7) exe
                           (world_of (fresh image_script))))).
Proof.
  destruct (create_temp_dir_accepts_file (host 7) exe
              (world_of (fresh image_script)) image_script) as [H1 H2].
  - by vm_compute.
  - apply (bool_decide_unpack _). by vm_compute.
  - split; [by rewrite H1 | exact H2].
Defined.

(** X17.  Under one temp root, different process ids give different
    directory names. *)
Theorem unique_dir_of_distinct (temp_path : string) (pid1 pid2 : N) :
  pid1 ≠ pid2 → unique_dir_of temp_path pid1 ≠ unique_dir_of temp_path pid2.
Proof.
  unfold unique_dir_of. intros Hne Heq. apply Hne.
  apply (inj (String.app temp_path)) in Heq as Hrest.
  apply (inj (String.app "lunu_")) in Hrest as Hpid.
  by apply (inj pretty).
Qed.

Lemma unique_dir_of_distinct_witness :
  unique_dir_of temp 4242 ≠ unique_dir_of temp 4243.
Proof. apply (unique_dir_of_distinct temp 4242 4243). lia. Defined.

(** X20.  Once the directory step is through (name of at most 241
    characters), what the launcher does is decided by what the host makes of
    the one command line: exit 1 after a report if it cannot start it, wait
    for ever if the child never ends, else exit with the child's code on
    the disk the child left.  The executable path it prints is cut to 259
    characters. *)
Theorem launcher_after_creation (h : Host) (w w1 : World) (p : string) :
  let u := unique_dir_of (temp_root h) (process_id h) in
  let cmd := cmd_line_of (lune_path_of u) (script_path_of u) in
  let w2 := put_out ("[Stub] Extracting payload from " +:+
                     substring 0 259 p +:+ " to " +:+ u +:+ "..." +:+ nl) w1 in
  module_file_name h = Some p →
  (String.length u ≤ 241)%nat →
  create_temp_dir h u w = (inr tt, w1) →
  launcher h w =
  match program h cmd u (fs w1) with
  | None =>
      (Exited 1,
       panicked "Failed to start Lune runtime" (log_call (Spawn cmd u false) w2))
  | Some RunsForever => (Blocked, log_call (Spawn cmd u true) w2)
  | Some (Terminates c after) =>
      (Exited (DWORD c),
       log_call (Reaped (DWORD c)) (set_fs after (log_call (Spawn cmd u true) w2)))
  end.
Proof.
  intros u cmd w2 Hexe Hlen Hmk. unfold launcher. rewrite main_eq. fold u cmd.
  rewrite Hexe, (fits_of_short h Hlen), Hmk, (proj2 (paths_fit_241 u) Hlen).
  rewrite extract_payload_eq. cbv zeta. cbn [snd]. rewrite run_lune_eq.
  change (fs (put_out _ w1)) with (fs w1).
  destruct (program h cmd u (fs w1)) as [[c after|]|]; [|done|done].
  by rewrite DWORD_int_of_DWORD by apply DWORD_range.
Qed.

Lemma launcher_after_creation_witness :
  fst (launcher (host 7) (world_of (stale image_script))) = Exited 7
  ∧ out (snd (launcher (host 7) (world_of (stale image_script))))
    = ["[Stub] Extracting payload from C:\app\game.exe to C:\Temp\lunu_4242..."
       +:+ nl].
Proof.
  rewrite (launcher_after_creation (host 7) (world_of (stale image_script))
             (set_last_error 183 (world_of (stale image_script))) exe).
  - by vm_compute.
  - reflexivity.
  - vm_compute. lia.
  - by vm_compute.
Defined.

(** X18.  A run ends in the endless wait on its child exactly when its
    [CreateProcessA] call has started the child and no exit code was read
    after it: once the child is started nothing but that wait keeps the
    launcher from reading the code. *)
Theorem blocked_iff_child_started (h : Host) (w : World) :
  let u := unique_dir_of (temp_root h) (process_id h) in
  let cmd := cmd_line_of (lune_path_of u) (script_path_of u) in
  fst (launcher h w) = Blocked
  ↔ calls (snd (launcher h w)) = Spawn cmd u true :: calls w.
Proof.
  intros u cmd.
  assert (Hne : ∀ (l : list Call) x, l ≠ x :: l).
  { intros l x H. apply (f_equal length) in H. simpl in H. lia. }
  destruct (launcher_trace h w) as [[Hc Ho]|[[Hc Ho]|[[Hc Ho]|(c & Hc & Ho)]]];
    fold u cmd in Hc; rewrite Hc.
  - split; [by destruct Ho as [-> | ->]|]. intros H. by apply Hne in H.
  - rewrite Ho. split; [done|]. by intros [=].
  - by rewrite Ho.
  - rewrite Ho. split; [done|]. by intros [=].
Qed.

(** X15.  In a run that starts no child the launcher leaves every file as
    it was and adds at most its own directory. *)
Theorem launcher_footprint (h : Host) (w : World) (new : list Call) :
  let u := unique_dir_of (temp_root h) (process_id h) in
  calls (snd (launcher h w)) = new ++ calls w →
  (∀ cmd cwd, Spawn cmd cwd true ∉ new) →
  files (fs (snd (launcher h w))) = files (fs w)
  ∧ (dirs (fs (snd (launcher h w))) = dirs (fs w)
     ∨ dirs (fs (snd (launcher h w))) = {[u]} ∪ dirs (fs w)).
Proof.
  intros u Hnew Hnone. revert Hnew. unfold launcher. rewrite main_eq. fold u.
  destruct (module_file_name h) as [p|]; [|by auto].
  destruct (fits h); [|by auto].
  destruct (create_temp_dir h u w) as [[o|[]] w1] eqn:Hmk.
  { apply (proj2 (create_temp_dir_effect h u w w1)) in Hmk
      as (_ & Hfs & _). cbn. rewrite Hfs. auto. }
  apply (proj1 (create_temp_dir_effect h u w w1)) in Hmk
    as (_ & Hf & Hd & _ & _ & Hcalls).
  rewrite extract_payload_eq. cbv zeta. cbn [snd].
  destruct (paths_fit u); [|by cbn; rewrite Hf].
  rewrite run_lune_eq. change (fs (put_out _ w1)) with (fs w1).
  set (cmd := cmd_line_of (lune_path_of u) (script_path_of u)).
  destruct (program h cmd u (fs w1)) as [[c after|]|]; cbn; rewrite ?Hf; auto.
  rewrite Hcalls. intros Hnew. exfalso. apply (Hnone cmd u).
  change (Reaped (DWORD c) :: Spawn cmd u true :: calls w)
    with ([Reaped (DWORD c); Spawn cmd u true] ++ calls w) in Hnew.
  apply app_inv_tail in Hnew as <-. right. left.
Qed.

Lemma launcher_footprint_witness :
  files (fs (snd (launcher (host 7) (world_of (fresh image_script)))))
  = {[ exe := image_script ]}.
Proof.
  refine (proj1 (launcher_footprint (host 7) (world_of (fresh image_script))
            [Spawn (cmd_line_of (lune_path_of temp_dir) (script_path_of temp_dir))
                   temp_dir false] _ _)).
  - by vm_compute.
  - intros cmd cwd Hc%list_elem_of_singleton. discriminate.
Defined.

End StubProps.
